(** * gosigfuzz: re-registering signal handlers on the alternate stack

    A shallow embedding of [fuzz/gosigfuzz/gosigfuzz.c].  The file has three
    functions: [fixSignalHandler], [FixStackSignalHandler] and the libFuzzer
    hook [LLVMFuzzerInitialize].  They talk to the operating system through
    [sigaction(2)] only, so the embedding consists of

    - the constants of [<signal.h>] the code names, as an interface
      ([signal_h]) with the Linux and Darwin values as instances;
    - [struct sigaction] and the per-process signal disposition table;
    - the POSIX behaviour of [sigaction] on that table, failure included,
      and the same with the flags a C library adds to what it installs
      (glibc on x86-64: SA_RESTORER);
    - the three functions, written in a state monad over the process. *)

From stdpp Require Import base option list gmap.
From Stdlib Require Import ZArith.

Local Open Scope Z_scope.

(** ** The constants of <signal.h>

    The header is the platform's, not the repository's: the numbers behind
    the names are parameters of the development.  [SIGKILL] and [SIGSTOP]
    are not named by the code, the model of [sigaction] needs them. *)

Class signal_h := {
  SIGSEGV : Z;
  SIGABRT : Z;
  SIGALRM : Z;
  SIGINT : Z;
  SIGTERM : Z;
  SIGBUS : Z;
  SIGFPE : Z;
  SIGXFSZ : Z;
  SIGUSR1 : Z;
  SIGUSR2 : Z;
  SIGKILL : Z;
  SIGSTOP : Z;
  SA_ONSTACK : Z
}.

(** Linux on x86-64 (asm-generic/signal.h). *)
Definition linux_amd64 : signal_h := {|
  SIGSEGV := 11; SIGABRT := 6; SIGALRM := 14; SIGINT := 2; SIGTERM := 15;
  SIGBUS := 7; SIGFPE := 8; SIGXFSZ := 25; SIGUSR1 := 10; SIGUSR2 := 12;
  SIGKILL := 9; SIGSTOP := 19;
  SA_ONSTACK := 0x08000000
|}.

(** Darwin (sys/signal.h). *)
Definition darwin : signal_h := {|
  SIGSEGV := 11; SIGABRT := 6; SIGALRM := 14; SIGINT := 2; SIGTERM := 15;
  SIGBUS := 10; SIGFPE := 8; SIGXFSZ := 25; SIGUSR1 := 30; SIGUSR2 := 31;
  SIGKILL := 9; SIGSTOP := 17;
  SA_ONSTACK := 0x0001
|}.

(** ** struct sigaction

    Function pointers are addresses; [sa_flags] is a C [int]; [sigset_t] is
    the set of signal numbers it holds.  The code reads and writes
    [sa_handler] and [sa_sigaction] as two members, and so does the record
    (where a platform overlays them, the two hold the same address). *)

Abbreviation sigset_t := (gset Z).

Record struct_sigaction := mk_sigaction {
  sa_handler : Z;
  sa_sigaction : Z;
  sa_mask : sigset_t;
  sa_flags : Z
}.

(** Assignments to one member. *)
Definition set_sa_handler (v : Z) (a : struct_sigaction) : struct_sigaction :=
  {| sa_handler := v; sa_sigaction := sa_sigaction a;
     sa_mask := sa_mask a; sa_flags := sa_flags a |}.

Definition set_sa_sigaction (v : Z) (a : struct_sigaction) : struct_sigaction :=
  {| sa_handler := sa_handler a; sa_sigaction := v;
     sa_mask := sa_mask a; sa_flags := sa_flags a |}.

Definition set_sa_mask (v : sigset_t) (a : struct_sigaction) : struct_sigaction :=
  {| sa_handler := sa_handler a; sa_sigaction := sa_sigaction a;
     sa_mask := v; sa_flags := sa_flags a |}.

Definition set_sa_flags (v : Z) (a : struct_sigaction) : struct_sigaction :=
  {| sa_handler := sa_handler a; sa_sigaction := sa_sigaction a;
     sa_mask := sa_mask a; sa_flags := v |}.

(** The range of a C [int]. *)
Definition INT_MIN : Z := - 2 ^ 31.
Definition INT_MAX : Z := 2 ^ 31 - 1.
Definition is_int (z : Z) : Prop := INT_MIN ≤ z ≤ INT_MAX.

(** ** The process

    What the code can touch: the signal dispositions the kernel keeps for the
    process ([actions], one entry per signal number the platform knows), the
    memory outside the frames of the three functions ([memory], where the
    objects behind [argc] and [argv] live) and, as a record of what was asked
    of the kernel, the [sigaction] calls made so far, oldest first. *)

Record syscall := mk_syscall {
  sc_signum : Z;
  sc_act : option struct_sigaction;   (* the action passed, None for NULL *)
  sc_oldact : bool;                   (* was an old action asked for *)
  sc_ret : Z
}.

Record process := mk_process {
  actions : gmap Z struct_sigaction;
  memory : gmap Z Z;
  calls : list syscall
}.

(** The state monad of the process. *)
Definition IO (A : Type) : Type := process → A * process.

#[global] Instance IO_ret : MRet IO := λ A x p, (x, p).
#[global] Instance IO_bind : MBind IO :=
  λ A B f m p, let '(x, p') := m p in f x p'.

(** ** sigaction(2) and sigemptyset(3)

    The code reaches the kernel through [sigaction] alone.  Its signature:
    [sigaction signum act oldact], where [act] is the action to install
    ([None] for a null pointer) and [oldact] the present contents of the
    object the old action is to be stored in ([None] for a null pointer).
    The result is the return value and the contents of that object after
    the call. *)

Class kernel := {
  sigaction : Z → option struct_sigaction → option struct_sigaction →
              IO (Z * option struct_sigaction)
}.

Definition logged (signum : Z) (act oldact : option struct_sigaction)
    (ret : Z) (p : process) : list syscall :=
  calls p ++ [mk_syscall signum act (bool_decide (is_Some oldact)) ret].

(** POSIX: the call fails with EINVAL (returns -1, changes nothing) when
    [signum] is no signal of the platform, or when an action is to be
    installed for SIGKILL or SIGSTOP.  Otherwise the present action is
    stored through [oldact], then [act] is installed, and the call
    returns 0. *)
Definition posix_sigaction `{signal_h} (signum : Z)
    (act oldact : option struct_sigaction) : IO (Z * option struct_sigaction) :=
  λ p,
    match actions p !! signum with
    | None =>
        ((-1, oldact),
         mk_process (actions p) (memory p) (logged signum act oldact (-1) p))
    | Some current =>
        if bool_decide (is_Some act ∧ (signum = SIGKILL ∨ signum = SIGSTOP))
        then
          ((-1, oldact),
           mk_process (actions p) (memory p) (logged signum act oldact (-1) p))
        else
          ((0, match oldact with Some _ => Some current | None => None end),
           mk_process
             (match act with
              | Some a => <[signum := a]> (actions p)
              | None => actions p
              end)
             (memory p) (logged signum act oldact 0 p))
    end.

#[global] Instance posix `{signal_h} : kernel := {| sigaction := posix_sigaction |}.

(** [posix_sigaction] is the call as POSIX words it.  The [sigaction] a
    program links against is the C library's, and a C library may set flags
    of its own in every action it installs: glibc on x86-64 sets SA_RESTORER
    (0x04000000), and a later query reports the flag back.  [libc forced] is
    the POSIX call with the flags [forced] added to each installed action;
    the history records the action as the caller passed it. *)
Definition with_flags (forced : Z) (a : struct_sigaction) : struct_sigaction :=
  set_sa_flags (Z.lor (sa_flags a) forced) a.

Definition libc_sigaction `{signal_h} (forced : Z) (signum : Z)
    (act oldact : option struct_sigaction) : IO (Z * option struct_sigaction) :=
  λ p,
    match actions p !! signum with
    | None =>
        ((-1, oldact),
         mk_process (actions p) (memory p) (logged signum act oldact (-1) p))
    | Some current =>
        if bool_decide (is_Some act ∧ (signum = SIGKILL ∨ signum = SIGSTOP))
        then
          ((-1, oldact),
           mk_process (actions p) (memory p) (logged signum act oldact (-1) p))
        else
          ((0, match oldact with Some _ => Some current | None => None end),
           mk_process
             (match act with
              | Some a => <[signum := with_flags forced a]> (actions p)
              | None => actions p
              end)
             (memory p) (logged signum act oldact 0 p))
    end.

Definition libc `{signal_h} (forced : Z) : kernel :=
  {| sigaction := libc_sigaction forced |}.

(** glibc on Linux/x86-64. *)
Definition SA_RESTORER : Z := 0x04000000.

Definition glibc_amd64 : kernel := libc (H := linux_amd64) SA_RESTORER.

(** [sigemptyset set]: the return value and the emptied set. *)
Definition sigemptyset (set : sigset_t) : Z * sigset_t := (0, ∅).

(** ** The program *)

(** The two locals of [fixSignalHandler] are declared without initialiser:
    a [frame] gives the indeterminate contents they start with. *)
Record frame := mk_frame {
  new_action0 : struct_sigaction;
  old_action0 : struct_sigaction
}.

Definition fixSignalHandler `{signal_h} {K : kernel} (signum : Z) (fr : frame)
    : IO unit :=
  let new_action := new_action0 fr in
  let old_action := old_action0 fr in
  let new_action := set_sa_mask (sigemptyset (sa_mask new_action)).2 new_action in
  r ← sigaction signum None (Some old_action);
  let old_action := default old_action r.2 in
  let new_action :=
    set_sa_flags (Z.lor (sa_flags old_action) SA_ONSTACK) new_action in
  let new_action := set_sa_sigaction (sa_sigaction old_action) new_action in
  let new_action := set_sa_handler (sa_handler old_action) new_action in
  _ ← sigaction signum (Some new_action) None;
  mret ().

(** [uninit n] is the frame of the [n]-th activation of [fixSignalHandler]. *)
Definition FixStackSignalHandler `{signal_h} {K : kernel} (uninit : nat → frame)
    : IO unit :=
  _ ← fixSignalHandler SIGSEGV (uninit 0%nat);
  _ ← fixSignalHandler SIGABRT (uninit 1%nat);
  _ ← fixSignalHandler SIGALRM (uninit 2%nat);
  _ ← fixSignalHandler SIGINT (uninit 3%nat);
  _ ← fixSignalHandler SIGTERM (uninit 4%nat);
  _ ← fixSignalHandler SIGBUS (uninit 5%nat);
  _ ← fixSignalHandler SIGFPE (uninit 6%nat);
  _ ← fixSignalHandler SIGXFSZ (uninit 7%nat);
  _ ← fixSignalHandler SIGUSR1 (uninit 8%nat);
  _ ← fixSignalHandler SIGUSR2 (uninit 9%nat);
  mret ().

(** [argc] and [argv] are the two pointers the fuzzing engine passes. *)
Definition LLVMFuzzerInitialize `{signal_h} {K : kernel} (argc argv : Z)
    (uninit : nat → frame) : IO Z :=
  _ ← FixStackSignalHandler uninit;
  mret 0.

(** ** Vocabulary of the statements

    The definitions below are not part of the program: they name what the
    lemmas show the program to do. *)

(** The signal numbers [FixStackSignalHandler] passes, in program order. *)
Definition fixed_signals `{signal_h} : list Z :=
  [SIGSEGV; SIGABRT; SIGALRM; SIGINT; SIGTERM;
   SIGBUS; SIGFPE; SIGXFSZ; SIGUSR1; SIGUSR2].

(** The value of [new_action] at the second [sigaction] call, given the
    value of [old_action] there. *)
Definition installed_action `{signal_h} (old : struct_sigaction) : struct_sigaction :=
  {| sa_handler := sa_handler old; sa_sigaction := sa_sigaction old;
     sa_mask := ∅; sa_flags := Z.lor (sa_flags old) SA_ONSTACK |}.

(** The disposition table after [fixSignalHandler signum]. *)
Definition fix_entry `{signal_h} (signum : Z)
    (tbl : gmap Z struct_sigaction) : gmap Z struct_sigaction :=
  if decide (signum = SIGKILL ∨ signum = SIGSTOP) then tbl
  else alter installed_action signum tbl.

(** The two calls [fixSignalHandler signum] makes on the table [tbl]. *)
Definition fix_calls `{signal_h} (signum : Z) (fr : frame)
    (tbl : gmap Z struct_sigaction) : list syscall :=
  let old := default (old_action0 fr) (tbl !! signum) in
  [ mk_syscall signum None true
      (match tbl !! signum with Some _ => 0 | None => -1 end);
    mk_syscall signum (Some (installed_action old)) false
      (match tbl !! signum with
       | Some _ => if decide (signum = SIGKILL ∨ signum = SIGSTOP) then -1 else 0
       | None => -1
       end) ].

(** [fixSignalHandler] over a list of signal numbers, the [n]-th activation
    first. *)
Fixpoint fix_list `{signal_h} {K : kernel} (l : list Z) (uninit : nat → frame)
    (n : nat) : IO unit :=
  match l with
  | [] => mret ()
  | signum :: l' =>
      _ ← fixSignalHandler signum (uninit n); fix_list l' uninit (S n)
  end.

(** The table after the activations for [l], left to right. *)
Definition fix_table `{signal_h} (l : list Z)
    (tbl : gmap Z struct_sigaction) : gmap Z struct_sigaction :=
  foldl (λ t signum, fix_entry signum t) tbl l.

(** The calls they make, starting from the table [tbl]. *)
Fixpoint fix_trace `{signal_h} (l : list Z) (uninit : nat → frame) (n : nat)
    (tbl : gmap Z struct_sigaction) : list syscall :=
  match l with
  | [] => []
  | signum :: l' =>
      fix_calls signum (uninit n) tbl
        ++ fix_trace l' uninit (S n) (fix_entry signum tbl)
  end.

(** The calls of a history that install an action, the calls on one signal,
    and the signals a history installs actions for, in order. *)
Definition installs (cs : list syscall) : list syscall :=
  filter (λ c, is_Some (sc_act c)) cs.

Definition calls_on (signum : Z) (cs : list syscall) : list syscall :=
  filter (λ c, sc_signum c = signum) cs.

Definition processed (cs : list syscall) : list Z :=
  sc_signum <$> installs cs.

(** How often [signum] occurs in a list of signal numbers. *)
Definition occurrences (signum : Z) (l : list Z) : nat :=
  length (filter (λ s, s = signum) l).

(** Two kernels that differ in nothing but the value [sigaction] returns. *)
Definition same_effects (K1 K2 : kernel) : Prop :=
  ∀ signum act oldact p,
    (sigaction (kernel := K1) signum act oldact p).1.2
      = (sigaction (kernel := K2) signum act oldact p).1.2
    ∧ (sigaction (kernel := K1) signum act oldact p).2
      = (sigaction (kernel := K2) signum act oldact p).2.

(** The entry [libc forced] leaves when [fixSignalHandler] has read [old]:
    the action the code passes, with the library's flags. *)
Definition installed_by `{signal_h} (forced : Z) (old : struct_sigaction)
    : struct_sigaction :=
  with_flags forced (installed_action old).

(** The table after [fixSignalHandler signum] under [libc forced], after the
    activations for a list, and the calls those make. *)
Definition libc_entry `{signal_h} (forced : Z) (signum : Z)
    (tbl : gmap Z struct_sigaction) : gmap Z struct_sigaction :=
  if decide (signum = SIGKILL ∨ signum = SIGSTOP) then tbl
  else alter (installed_by forced) signum tbl.

Definition libc_table `{signal_h} (forced : Z) (l : list Z)
    (tbl : gmap Z struct_sigaction) : gmap Z struct_sigaction :=
  foldl (λ t signum, libc_entry forced signum t) tbl l.

Fixpoint libc_trace `{signal_h} (forced : Z) (l : list Z)
    (uninit : nat → frame) (n : nat) (tbl : gmap Z struct_sigaction)
    : list syscall :=
  match l with
  | [] => []
  | signum :: l' =>
      fix_calls signum (uninit n) tbl
        ++ libc_trace forced l' uninit (S n) (libc_entry forced signum tbl)
  end.

(** The reference read-modify-write in the words of the specification:
    read the current configuration of the signal, add the alternate-stack
    flag to it, reinstall it.  [buf] is what the object the configuration
    is read into holds beforehand. *)
Definition spec_rmw `{signal_h} {K : kernel} (signum : Z)
    (buf : struct_sigaction) : IO unit :=
  r ← sigaction signum None (Some buf);
  let old := default buf r.2 in
  _ ← sigaction signum
        (Some (set_sa_flags (Z.lor (sa_flags old) SA_ONSTACK) old)) None;
  mret ().

(** The reference that empties the mask: the new action has the handler
    fields of the configuration read, its flags with the alternate-stack
    flag added, and an empty mask. *)
Definition emptying_rmw `{signal_h} {K : kernel} (signum : Z)
    (buf : struct_sigaction) : IO unit :=
  r ← sigaction signum None (Some buf);
  let old := default buf r.2 in
  _ ← sigaction signum
        (Some {| sa_handler := sa_handler old;
                 sa_sigaction := sa_sigaction old;
                 sa_mask := ∅;
                 sa_flags := Z.lor (sa_flags old) SA_ONSTACK |}) None;
  mret ().

(** ** Sample data: a process on Linux *)

(** Every signal 1..64 at its default disposition. *)
Definition linux_default_actions : gmap Z struct_sigaction :=
  list_to_map ((λ s, (s, mk_sigaction 0 0 ∅ 0)) <$> seqZ 1 64).

(** A SIGSEGV handler at 0x401000 registered with SA_SIGINFO, blocking
    SIGINT and SIGTERM while it runs; a SIGUSR1 handler that already has
    SA_ONSTACK. *)
Definition sample_segv : struct_sigaction :=
  mk_sigaction 0x401000 0x401000 {[2; 15]} 4.

Definition sample_usr1 : struct_sigaction :=
  mk_sigaction 0x402000 0x402000 ∅ 0x08000004.

Definition sample_actions : gmap Z struct_sigaction :=
  <[11 := sample_segv]> (<[10 := sample_usr1]> linux_default_actions).

Definition sample_process : process :=
  mk_process sample_actions {[ 0x7ffc1000 := 1; 0x7ffc1008 := 0x7ffc2000 ]} [].

(** The same dispositions with other memory and an earlier call on record. *)
Definition sample_process' : process :=
  mk_process sample_actions {[ 0x7ffc1000 := 3 ]}
    [mk_syscall 13 None true 0].

Definition sample_frame : frame :=
  mk_frame (mk_sigaction 7 7 {[3]} 77) (mk_sigaction 9 9 {[4]} 99).

Definition sample_uninit : nat → frame := λ _, sample_frame.

(** A process whose table knows no signal at all: every call fails. *)
Definition bare_process : process := mk_process ∅ ∅ [].

(** A kernel that does what POSIX says and reports failure every time. *)
Definition grumpy `{signal_h} : kernel :=
  {| sigaction := λ signum act oldact p,
       let r := posix_sigaction signum act oldact p in ((-1, r.1.2), r.2) |}.

(** ** Vocabulary of the further properties *)

(** The calls a run added to the history: those of [p'] past the ones [p]
    already had. *)
Definition new_calls (p p' : process) : list syscall :=
  drop (length (calls p)) (calls p').

(** A call that installs nothing, or asks for an action with an empty mask
    and SA_ONSTACK among its flags. *)
Definition onstack_request `{signal_h} (c : syscall) : Prop :=
  match sc_act c with
  | Some a => sa_mask a = ∅ ∧ Z.land (sa_flags a) SA_ONSTACK = SA_ONSTACK
  | None => True
  end.

(** A signal whose action the table [tbl] holds and POSIX lets a process
    replace. *)
Definition adjustable `{signal_h} (tbl : gmap Z struct_sigaction)
    (signum : Z) : Prop :=
  is_Some (tbl !! signum) ∧ signum ≠ SIGKILL ∧ signum ≠ SIGSTOP.

#[global] Instance adjustable_dec `{signal_h} tbl signum :
  Decision (adjustable tbl signum).
Proof. unfold adjustable. apply _. Defined.

#[global] Instance is_int_dec z : Decision (is_int z).
Proof. unfold is_int. apply _. Defined.

(** ** Bit-level facts about the flags *)

Lemma is_int_shiftr z : is_int z ↔ z ≫ 31 = 0 ∨ z ≫ 31 = -1.
Proof.
  unfold is_int, INT_MIN, INT_MAX. rewrite Z.shiftr_div_pow2 by lia.
  change (2 ^ 31) with 2147483648. split; intros Hz.
  - assert (z `div` 2147483648 = 0 ∨ z `div` 2147483648 = -1) as Hd; [|done].
    pose proof (Z.div_mod z 2147483648 ltac:(lia)).
    pose proof (Z.mod_pos_bound z 2147483648 ltac:(lia)). lia.
  - pose proof (Z.div_mod z 2147483648 ltac:(lia)).
    pose proof (Z.mod_pos_bound z 2147483648 ltac:(lia)). lia.
Qed.

(** [int | int] is an [int]: the flags computed never leave the type. *)
Lemma lor_is_int a b : is_int a → is_int b → is_int (Z.lor a b).
Proof.
  rewrite !is_int_shiftr, Z.shiftr_lor.
  intros [->| ->] [->| ->]; simpl; auto.
Qed.

Lemma land_lor_same f s : Z.land (Z.lor f s) s = s.
Proof.
  apply Z.bits_inj'; intros n _.
  rewrite Z.land_spec, Z.lor_spec. destruct (Z.testbit f n), (Z.testbit s n); done.
Qed.

Lemma lor_testbit_other f s n :
  Z.testbit s n = false → Z.testbit (Z.lor f s) n = Z.testbit f n.
Proof. intros Hs. by rewrite Z.lor_spec, Hs, orb_false_r. Qed.

Lemma lor_absorbed f s : Z.land f s = s → Z.lor f s = f.
Proof.
  intros Hs. apply Z.bits_inj'; intros n _.
  rewrite Z.lor_spec, <- Hs, Z.land_spec.
  destruct (Z.testbit f n), (Z.testbit s n); done.
Qed.

(** ** One activation, under any kernel and under POSIX *)

Lemma fixSignalHandler_same_effects `{signal_h} (K1 K2 : kernel) signum fr p :
  same_effects K1 K2 →
  fixSignalHandler (K := K1) signum fr p = fixSignalHandler (K := K2) signum fr p.
Proof.
  intros HK. unfold fixSignalHandler, mbind, IO_bind, mret, IO_ret.
  destruct (HK signum None (Some (old_action0 fr)) p) as [Hr Hp].
  destruct (sigaction (kernel := K1) signum None (Some (old_action0 fr)) p)
    as [[ret1 old1] p1].
  destruct (sigaction (kernel := K2) signum None (Some (old_action0 fr)) p)
    as [[ret2 old2] p2].
  simpl in Hr, Hp. subst old2 p2. simpl.
  match goal with
  | |- context [sigaction (kernel := K1) signum ?a None p1] =>
      destruct (HK signum a None p1) as [_ Hp'];
      destruct (sigaction (kernel := K1) signum a None p1) as [? p1'];
      destruct (sigaction (kernel := K2) signum a None p1) as [? p2']
  end.
  simpl in Hp'. by subst.
Qed.

Lemma fix_list_same_effects `{signal_h} (K1 K2 : kernel) l uninit n p :
  same_effects K1 K2 →
  fix_list (K := K1) l uninit n p = fix_list (K := K2) l uninit n p.
Proof.
  intros HK. revert n p. induction l as [|signum l IH]; intros n p; [done|].
  simpl. unfold mbind, IO_bind.
  rewrite (fixSignalHandler_same_effects K1 K2) by done.
  destruct (fixSignalHandler (K := K2) signum (uninit n) p). apply IH.
Qed.

Lemma FixStackSignalHandler_fix_list `{signal_h} {K : kernel} uninit :
  FixStackSignalHandler uninit = fix_list fixed_signals uninit 0.
Proof. reflexivity. Qed.

Lemma installed_action_idemp `{signal_h} a :
  installed_action (installed_action a) = installed_action a.
Proof.
  unfold installed_action; simpl. f_equal.
  by rewrite <- Z.lor_assoc, Z.lor_diag.
Qed.

Lemma fixSignalHandler_run `{signal_h} signum fr p :
  fixSignalHandler signum fr p =
    ((), mk_process (fix_entry signum (actions p)) (memory p)
           (calls p ++ fix_calls signum fr (actions p))).
Proof.
  unfold fixSignalHandler, fix_entry, fix_calls, mbind, IO_bind, mret, IO_ret.
  unfold sigaction, posix, posix_sigaction, logged; simpl.
  destruct (actions p !! signum) as [cur|] eqn:Hcur; simpl.
  - rewrite Hcur.
    destruct (decide (signum = SIGKILL ∨ signum = SIGSTOP)) as [Hk|Hk].
    + rewrite bool_decide_eq_true_2 by (split; [by eexists|done]).
      by rewrite <- app_assoc.
    + rewrite bool_decide_eq_false_2 by (intros [_ ?]; done).
      rewrite <- app_assoc. do 2 f_equal.
      apply map_eq; intros i. rewrite lookup_alter, lookup_insert.
      destruct (decide (signum = i)) as [->|]; [by rewrite Hcur|done].
  - rewrite Hcur. rewrite <- app_assoc. do 2 f_equal.
    destruct (decide (signum = SIGKILL ∨ signum = SIGSTOP)); [done|].
    apply map_eq; intros i. rewrite lookup_alter.
    destruct (decide (signum = i)) as [->|]; [by rewrite Hcur|done].
Qed.

(** The flags installed stay within [int]. *)
Lemma installed_action_flags_is_int `{signal_h} old :
  is_int (sa_flags old) → is_int SA_ONSTACK →
  is_int (sa_flags (installed_action old)).
Proof. apply lor_is_int. Qed.

Lemma fix_entry_lookup `{signal_h} signum tbl i :
  fix_entry signum tbl !! i =
    if decide (i = signum ∧ ¬ (i = SIGKILL ∨ i = SIGSTOP))
    then installed_action <$> tbl !! i else tbl !! i.
Proof.
  unfold fix_entry.
  destruct (decide (signum = SIGKILL ∨ signum = SIGSTOP)) as [Hk|Hk].
  - rewrite decide_False; [done|]. intros [-> ?]; done.
  - rewrite lookup_alter.
    destruct (decide (signum = i)) as [->|Hne].
    + by rewrite decide_True.
    + rewrite decide_False; [done|]. intros [-> _]; done.
Qed.

(** ** The ten activations under POSIX *)

Lemma fix_list_run `{signal_h} l uninit n p :
  fix_list l uninit n p =
    ((), mk_process (fix_table l (actions p)) (memory p)
           (calls p ++ fix_trace l uninit n (actions p))).
Proof.
  revert n p. induction l as [|signum l IH]; intros n p.
  - simpl. unfold mret, IO_ret. rewrite app_nil_r. by destruct p.
  - simpl. unfold mbind, IO_bind. rewrite fixSignalHandler_run, IH.
    simpl. by rewrite <- app_assoc.
Qed.

Lemma FixStackSignalHandler_run `{signal_h} uninit p :
  FixStackSignalHandler uninit p =
    ((), mk_process (fix_table fixed_signals (actions p)) (memory p)
           (calls p ++ fix_trace fixed_signals uninit 0 (actions p))).
Proof. by rewrite FixStackSignalHandler_fix_list, fix_list_run. Qed.

Lemma LLVMFuzzerInitialize_run `{signal_h} argc argv uninit p :
  LLVMFuzzerInitialize argc argv uninit p =
    (0, mk_process (fix_table fixed_signals (actions p)) (memory p)
          (calls p ++ fix_trace fixed_signals uninit 0 (actions p))).
Proof.
  unfold LLVMFuzzerInitialize, mbind, IO_bind.
  by rewrite FixStackSignalHandler_run.
Qed.

(** An entry is rewritten when its signal is in the list and is neither
    SIGKILL nor SIGSTOP; every other entry is as it was. *)
Lemma fix_table_lookup `{signal_h} l tbl i :
  fix_table l tbl !! i =
    if decide (i ∈ l ∧ ¬ (i = SIGKILL ∨ i = SIGSTOP))
    then installed_action <$> tbl !! i else tbl !! i.
Proof.
  revert tbl. induction l as [|signum l IH]; intros tbl.
  - by unfold fix_table; simpl.
  - unfold fix_table in *. cbn [foldl]. rewrite IH, fix_entry_lookup.
    repeat case_decide; try done; try (exfalso; set_unfold; tauto).
    rewrite <- option_fmap_compose. apply option_fmap_ext. intros a; simpl.
    apply installed_action_idemp.
Qed.

Lemma fix_table_lookup_notin `{signal_h} l tbl i :
  i ∉ l → fix_table l tbl !! i = tbl !! i.
Proof.
  intros Hi. rewrite fix_table_lookup, decide_False; [done|].
  intros [? _]; done.
Qed.

Lemma fix_table_lookup_in `{signal_h} l tbl i :
  i ∈ l → i ≠ SIGKILL → i ≠ SIGSTOP →
  fix_table l tbl !! i = installed_action <$> tbl !! i.
Proof.
  intros Hi Hk Hs. rewrite fix_table_lookup, decide_True; [done|].
  split; [done|]. intros [?|?]; done.
Qed.

(** A second pass finds nothing to change. *)
Lemma fix_table_idemp `{signal_h} l tbl :
  fix_table l (fix_table l tbl) = fix_table l tbl.
Proof.
  apply map_eq; intros i. rewrite !fix_table_lookup.
  case_decide; [|done].
  rewrite <- option_fmap_compose. apply option_fmap_ext. intros a; simpl.
  apply installed_action_idemp.
Qed.

(** The installing calls of the trace name the signals of the list, in
    order. *)
Lemma processed_fix_trace `{signal_h} l uninit n tbl :
  processed (fix_trace l uninit n tbl) = l.
Proof.
  revert n tbl. induction l as [|signum l IH]; intros n tbl; [done|].
  cbn [fix_trace]. unfold fix_calls, processed, installs in *. cbn [app].
  rewrite filter_cons_False by (simpl; intros [? ?]; done).
  rewrite filter_cons_True by (simpl; by eexists).
  simpl. by rewrite IH.
Qed.

Lemma length_fix_trace `{signal_h} l uninit n tbl :
  length (fix_trace l uninit n tbl) = (2 * length l)%nat.
Proof.
  revert n tbl. induction l as [|signum l IH]; intros n tbl; [done|].
  simpl. rewrite IH. lia.
Qed.

Lemma calls_on_fix_trace_notin `{signal_h} l uninit n tbl signum :
  signum ∉ l → calls_on signum (fix_trace l uninit n tbl) = [].
Proof.
  revert n tbl. induction l as [|s l IH]; intros n tbl Hs; [done|].
  apply not_elem_of_cons in Hs as [Hne Hs].
  cbn [fix_trace]. unfold fix_calls, calls_on in *. cbn [app].
  rewrite !filter_cons_False by (simpl; congruence).
  by apply IH.
Qed.

(** With pairwise different signal numbers, the calls on a signal of the
    list are the two of its own activation. *)
Lemma calls_on_fix_trace_in `{signal_h} l uninit n tbl signum old :
  NoDup l → signum ∈ l → signum ≠ SIGKILL → signum ≠ SIGSTOP →
  tbl !! signum = Some old →
  calls_on signum (fix_trace l uninit n tbl) =
    [ mk_syscall signum None true 0;
      mk_syscall signum (Some (installed_action old)) false 0 ].
Proof.
  intros Hnd Hin Hk Hs. revert n tbl.
  induction Hnd as [|s l Hs' Hnd IH]; intros n tbl Hold.
  - by apply elem_of_nil in Hin.
  - cbn [fix_trace]. unfold fix_calls, calls_on in *. cbn [app].
    destruct (decide (s = signum)) as [->|Hne].
    + rewrite !filter_cons_True by done.
      fold (calls_on signum (fix_trace l uninit (S n) (fix_entry signum tbl))).
      rewrite calls_on_fix_trace_notin by done.
      rewrite Hold; simpl. rewrite decide_False; [done|].
      intros [?|?]; done.
    + rewrite !filter_cons_False by (simpl; congruence).
      apply IH.
      * apply elem_of_cons in Hin as [?|?]; [congruence|done].
      * rewrite fix_entry_lookup, decide_False; [done|].
        intros [? _]; congruence.
Qed.

Lemma occurrences_notin signum (l : list Z) :
  signum ∉ l → occurrences signum l = 0%nat.
Proof.
  unfold occurrences. induction l as [|s l IH]; intros Hs; [done|].
  apply not_elem_of_cons in Hs as [Hne Hs].
  rewrite filter_cons_False by congruence. by apply IH.
Qed.

Lemma occurrences_NoDup signum (l : list Z) :
  NoDup l → signum ∈ l → occurrences signum l = 1%nat.
Proof.
  induction 1 as [|s l Hs Hnd IH]; intros Hin.
  - by apply elem_of_nil in Hin.
  - unfold occurrences in *. destruct (decide (s = signum)) as [->|Hne].
    + rewrite filter_cons_True by done. simpl.
      f_equal. by apply occurrences_notin.
    + rewrite filter_cons_False by done. apply IH.
      apply elem_of_cons in Hin as [?|?]; [congruence|done].
Qed.

(** ** The claims *)

(** C2. For every signal number in the fixed set, after
    [LLVMFuzzerInitialize] both handler fields, [sa_handler] and
    [sa_sigaction], of the registered action are the ones registered
    before. *)
Theorem handler_unchanged `{signal_h} argc argv uninit p signum old :
  signum ∈ fixed_signals →
  actions p !! signum = Some old →
  ∃ new,
    actions (LLVMFuzzerInitialize argc argv uninit p).2 !! signum = Some new
    ∧ sa_handler new = sa_handler old
    ∧ sa_sigaction new = sa_sigaction old.
Proof.
  intros Hin Hold. rewrite LLVMFuzzerInitialize_run; cbn [fst snd actions calls].
  rewrite fix_table_lookup, Hold. case_decide; simpl; by eexists.
Qed.

(** C4. [LLVMFuzzerInitialize] returns 0 whatever its arguments and
    whatever the [sigaction] calls do or return; and what the calls return
    is discarded: two kernels that differ in the returned values only give
    the same run. *)
Theorem always_reports_success `{signal_h} :
  (∀ (K : kernel) argc argv uninit p,
     (LLVMFuzzerInitialize (K := K) argc argv uninit p).1 = 0)
  ∧ (∀ K1 K2 : kernel, same_effects K1 K2 →
     ∀ argc argv uninit p,
       LLVMFuzzerInitialize (K := K1) argc argv uninit p
       = LLVMFuzzerInitialize (K := K2) argc argv uninit p).
Proof.
  split.
  - intros K argc argv uninit p.
    unfold LLVMFuzzerInitialize, mbind, IO_bind.
    by destruct (FixStackSignalHandler uninit p).
  - intros K1 K2 HK argc argv uninit p.
    unfold LLVMFuzzerInitialize, mbind, IO_bind.
    rewrite !FixStackSignalHandler_fix_list.
    by rewrite (fix_list_same_effects K1 K2).
Qed.

(** C5. For every signal number outside the fixed set, the entry of that
    signal (handler, flags and mask, or its absence) after
    [LLVMFuzzerInitialize] is the entry before. *)
Theorem other_signals_untouched `{signal_h} argc argv uninit p signum :
  signum ∉ fixed_signals →
  actions (LLVMFuzzerInitialize argc argv uninit p).2 !! signum
    = actions p !! signum.
Proof.
  intros Hout. rewrite LLVMFuzzerInitialize_run; cbn [fst snd actions calls].
  by apply fix_table_lookup_notin.
Qed.

(** C6. [LLVMFuzzerInitialize] does not depend on its arguments: under any
    kernel two calls that differ in [argc] and [argv] only give the same
    run; the return value and the resulting signal table are determined by
    the initial signal table alone, so neither the memory behind the
    pointers nor anything else is read; and the memory is left as it
    was. *)
Theorem arguments_ignored `{signal_h} :
  (∀ (K : kernel) argc argv argc' argv' uninit p,
     LLVMFuzzerInitialize (K := K) argc argv uninit p
     = LLVMFuzzerInitialize (K := K) argc' argv' uninit p)
  ∧ (∀ argc argv argc' argv' uninit uninit' p p',
       actions p = actions p' →
       (LLVMFuzzerInitialize argc argv uninit p).1
         = (LLVMFuzzerInitialize argc' argv' uninit' p').1
       ∧ actions (LLVMFuzzerInitialize argc argv uninit p).2
         = actions (LLVMFuzzerInitialize argc' argv' uninit' p').2)
  ∧ (∀ argc argv uninit p,
       memory (LLVMFuzzerInitialize argc argv uninit p).2 = memory p).
Proof.
  split; [|split].
  - done.
  - intros argc argv argc' argv' uninit uninit' p p' Hp.
    rewrite !LLVMFuzzerInitialize_run; cbn [fst snd actions calls]. by rewrite Hp.
  - intros argc argv uninit p. by rewrite LLVMFuzzerInitialize_run.
Qed.

(** C7. For every signal number in the fixed set, after initialization the
    registered mask [sa_mask] of that signal is the empty set, whatever
    mask was registered before. *)
Theorem mask_emptied `{signal_h} argc argv uninit p signum old :
  signum ∈ fixed_signals → signum ≠ SIGKILL → signum ≠ SIGSTOP →
  actions p !! signum = Some old →
  ∃ new,
    actions (LLVMFuzzerInitialize argc argv uninit p).2 !! signum = Some new
    ∧ sa_mask new = ∅.
Proof.
  intros Hin Hk Hs Hold. rewrite LLVMFuzzerInitialize_run; cbn [fst snd actions calls].
  rewrite fix_table_lookup_in, Hold by done. by eexists.
Qed.

(** C9. The signals [FixStackSignalHandler] adjusts are exactly the ten
    signals SIGSEGV, SIGABRT, SIGALRM, SIGINT, SIGTERM, SIGBUS, SIGFPE,
    SIGXFSZ, SIGUSR1 and SIGUSR2, in this order, twenty calls in all; their
    numbers being pairwise different, each is processed exactly once. *)
Theorem ten_signals_each_once `{signal_h} uninit p :
  ∃ cs,
    calls (FixStackSignalHandler uninit p).2 = calls p ++ cs
    ∧ processed cs =
        [SIGSEGV; SIGABRT; SIGALRM; SIGINT; SIGTERM;
         SIGBUS; SIGFPE; SIGXFSZ; SIGUSR1; SIGUSR2]
    ∧ length cs = 20%nat
    ∧ (NoDup [SIGSEGV; SIGABRT; SIGALRM; SIGINT; SIGTERM;
              SIGBUS; SIGFPE; SIGXFSZ; SIGUSR1; SIGUSR2] →
       ∀ signum,
         occurrences signum (processed cs)
         = if decide (signum ∈ [SIGSEGV; SIGABRT; SIGALRM; SIGINT; SIGTERM;
                                SIGBUS; SIGFPE; SIGXFSZ; SIGUSR1; SIGUSR2])
           then 1%nat else 0%nat).
Proof.
  rewrite FixStackSignalHandler_run; cbn [fst snd actions calls].
  exists (fix_trace fixed_signals uninit 0 (actions p)).
  rewrite processed_fix_trace, length_fix_trace.
  split; [done|]. split; [done|]. split; [done|].
  intros Hnd signum. case_decide.
  - by apply occurrences_NoDup.
  - by apply occurrences_notin.
Qed.

(** ** The claims at work: a process on Linux/x86-64 *)

(** Closed decidable facts, by evaluation of their decision procedure. *)
Ltac by_decide := apply (bool_decide_unpack _); vm_compute; exact I.

Section on_linux.

#[local] Existing Instance linux_amd64.

(** The hook is entered with [argc] at 0x7ffc1000 and [argv] at
    0x7ffc1008. *)

Lemma handler_unchanged_on_linux :
  11 ∈ fixed_signals
  ∧ actions sample_process !! 11 = Some sample_segv
  ∧ ∃ new,
      actions (LLVMFuzzerInitialize 0x7ffc1000 0x7ffc1008
                 sample_uninit sample_process).2 !! 11 = Some new
      ∧ sa_handler new = sa_handler sample_segv
      ∧ sa_sigaction new = sa_sigaction sample_segv.
Proof.
  assert (11 ∈ fixed_signals) as Hin by by_decide.
  assert (actions sample_process !! 11 = Some sample_segv) as Hold
    by (vm_compute; reflexivity).
  repeat (split; [assumption|]).
  exact (handler_unchanged 0x7ffc1000 0x7ffc1008
           sample_uninit sample_process 11 sample_segv Hin Hold).
Defined.

Lemma same_effects_posix_grumpy : same_effects posix grumpy.
Proof. intros signum act oldact p. split; reflexivity. Defined.

Lemma always_reports_success_on_linux :
  same_effects posix grumpy
  ∧ LLVMFuzzerInitialize (K := posix) 0x7ffc1000 0x7ffc1008
      sample_uninit sample_process
    = LLVMFuzzerInitialize (K := grumpy) 0x7ffc1000 0x7ffc1008
        sample_uninit sample_process
  ∧ (LLVMFuzzerInitialize (K := grumpy) 0x7ffc1000 0x7ffc1008
       sample_uninit sample_process).1 = 0.
Proof.
  split; [exact same_effects_posix_grumpy|]. split.
  - exact (proj2 always_reports_success posix grumpy same_effects_posix_grumpy
             0x7ffc1000 0x7ffc1008 sample_uninit sample_process).
  - exact (proj1 always_reports_success grumpy
             0x7ffc1000 0x7ffc1008 sample_uninit sample_process).
Defined.

Lemma other_signals_untouched_on_linux :
  (13 ∉ fixed_signals)
  ∧ actions (LLVMFuzzerInitialize 0x7ffc1000 0x7ffc1008
               sample_uninit sample_process).2 !! 13
    = actions sample_process !! 13.
Proof.
  assert (13 ∉ fixed_signals) as Hout by by_decide.
  split; [assumption|].
  exact (other_signals_untouched 0x7ffc1000 0x7ffc1008
           sample_uninit sample_process 13 Hout).
Defined.

Lemma arguments_ignored_on_linux :
  actions sample_process = actions sample_process'
  ∧ memory sample_process ≠ memory sample_process'
  ∧ (LLVMFuzzerInitialize 0x7ffc1000 0x7ffc1008
       sample_uninit sample_process).1
    = (LLVMFuzzerInitialize 0 0 (λ _, mk_frame sample_usr1 sample_segv)
         sample_process').1
  ∧ actions (LLVMFuzzerInitialize 0x7ffc1000 0x7ffc1008
               sample_uninit sample_process).2
    = actions (LLVMFuzzerInitialize 0 0 (λ _, mk_frame sample_usr1 sample_segv)
                 sample_process').2.
Proof.
  assert (actions sample_process = actions sample_process') as Hp
    by reflexivity.
  split; [assumption|]. split; [vm_compute; discriminate|].
  exact (proj1 (proj2 arguments_ignored) 0x7ffc1000 0x7ffc1008 0 0
           sample_uninit (λ _, mk_frame sample_usr1 sample_segv)
           sample_process sample_process' Hp).
Defined.

Lemma mask_emptied_on_linux :
  11 ∈ fixed_signals ∧ 11 ≠ SIGKILL ∧ 11 ≠ SIGSTOP
  ∧ actions sample_process !! 11 = Some sample_segv
  ∧ sa_mask sample_segv ≠ ∅
  ∧ ∃ new,
      actions (LLVMFuzzerInitialize 0x7ffc1000 0x7ffc1008
                 sample_uninit sample_process).2 !! 11 = Some new
      ∧ sa_mask new = ∅.
Proof.
  assert (11 ∈ fixed_signals) as Hin by by_decide.
  assert (11 ≠ SIGKILL) as Hk by (vm_compute; discriminate).
  assert (11 ≠ SIGSTOP) as Hs by (vm_compute; discriminate).
  assert (actions sample_process !! 11 = Some sample_segv) as Hold
    by (vm_compute; reflexivity).
  repeat (split; [assumption|]).
  split; [vm_compute; discriminate|].
  exact (mask_emptied 0x7ffc1000 0x7ffc1008
           sample_uninit sample_process 11 sample_segv Hin Hk Hs Hold).
Defined.

Lemma ten_signals_each_once_on_linux :
  NoDup [SIGSEGV; SIGABRT; SIGALRM; SIGINT; SIGTERM;
         SIGBUS; SIGFPE; SIGXFSZ; SIGUSR1; SIGUSR2]
  ∧ ∃ cs,
      calls (FixStackSignalHandler sample_uninit sample_process).2
        = calls sample_process ++ cs
      ∧ processed cs = [11; 6; 14; 2; 15; 7; 8; 25; 10; 12]
      ∧ length cs = 20%nat
      ∧ occurrences 25 (processed cs) = 1%nat
      ∧ occurrences 13 (processed cs) = 0%nat.
Proof.
  assert (NoDup [SIGSEGV; SIGABRT; SIGALRM; SIGINT; SIGTERM;
                 SIGBUS; SIGFPE; SIGXFSZ; SIGUSR1; SIGUSR2]) as Hnd
    by by_decide.
  split; [assumption|].
  destruct (ten_signals_each_once sample_uninit sample_process)
    as (cs & Hcalls & Hproc & Hlen & Honce).
  exists cs. split; [exact Hcalls|]. split; [exact Hproc|].
  split; [exact Hlen|]. split.
  - exact (Honce Hnd 25).
  - exact (Honce Hnd 13).
Defined.

(** A table that knows no signal: all twenty calls fail, the table stays
    empty, and the hook still reports success. *)
Example every_call_fails :
  (LLVMFuzzerInitialize 0x7ffc1000 0x7ffc1008 sample_uninit bare_process).1 = 0
  ∧ sc_ret <$> calls (LLVMFuzzerInitialize 0x7ffc1000 0x7ffc1008
                        sample_uninit bare_process).2
    = replicate 20 (-1)
  ∧ actions (LLVMFuzzerInitialize 0x7ffc1000 0x7ffc1008
               sample_uninit bare_process).2 = ∅.
Proof. split; [|split]; vm_compute; reflexivity. Qed.

(** SIGKILL can be asked about, not changed: the activation leaves the
    table alone. *)
Example sigkill_refused :
  sc_ret <$> calls (fixSignalHandler 9 sample_frame sample_process).2 = [0; -1]
  ∧ actions (fixSignalHandler 9 sample_frame sample_process).2
    = actions sample_process.
Proof. split; vm_compute; reflexivity. Qed.

End on_linux.

Section on_darwin.

#[local] Existing Instance darwin.

(** The same entry on Darwin, where SA_ONSTACK is bit 0. *)
Example sample_segv_after_on_darwin :
  actions (LLVMFuzzerInitialize 0x7ffc1000 0x7ffc1008
             sample_uninit sample_process).2 !! 11
  = Some (mk_sigaction 0x401000 0x401000 ∅ 5).
Proof. vm_compute; reflexivity. Qed.

End on_darwin.

(** ** Further properties of the three functions *)

Lemma new_calls_app p p' cs :
  calls p' = calls p ++ cs → new_calls p p' = cs.
Proof. intros Hp. unfold new_calls. by rewrite Hp, drop_app_length. Qed.

Lemma fix_entry_is_Some `{signal_h} signum tbl i :
  is_Some (fix_entry signum tbl !! i) ↔ is_Some (tbl !! i).
Proof.
  rewrite fix_entry_lookup. case_decide; [|done]. by rewrite fmap_is_Some.
Qed.

Lemma fix_entry_adjustable `{signal_h} signum tbl i :
  adjustable (fix_entry signum tbl) i ↔ adjustable tbl i.
Proof. unfold adjustable. by rewrite fix_entry_is_Some. Qed.

Lemma fix_entry_comm `{signal_h} a b tbl :
  fix_entry a (fix_entry b tbl) = fix_entry b (fix_entry a tbl).
Proof.
  apply map_eq; intros i. rewrite !fix_entry_lookup.
  by repeat case_decide.
Qed.

(** When every signal of the list has an entry, the calls do not depend on
    what the frames held. *)
Lemma fix_trace_uninit `{signal_h} l uninit uninit' n n' tbl :
  Forall (λ s, is_Some (tbl !! s)) l →
  fix_trace l uninit n tbl = fix_trace l uninit' n' tbl.
Proof.
  revert n n' tbl. induction l as [|s l IH]; intros n n' tbl Hl; [done|].
  apply Forall_cons in Hl as [[old Hold] Hl].
  cbn [fix_trace]. f_equal.
  - unfold fix_calls. by rewrite Hold.
  - apply IH. eapply Forall_impl; [exact Hl|].
    intros i Hi. by apply fix_entry_is_Some.
Qed.

Lemma fix_trace_rets `{signal_h} l uninit n tbl :
  Forall (adjustable tbl) l →
  Forall (λ c, sc_ret c = 0) (fix_trace l uninit n tbl).
Proof.
  revert n tbl. induction l as [|s l IH]; intros n tbl Hl; [by constructor|].
  apply Forall_cons in Hl as [([old Hold] & Hk & Hs) Hl].
  cbn [fix_trace]. unfold fix_calls. cbn [app]. rewrite Hold.
  rewrite decide_False by (intros [?|?]; done).
  repeat (constructor; [done|]).
  apply IH. eapply Forall_impl; [exact Hl|].
  intros i Hi. by apply fix_entry_adjustable.
Qed.

Lemma fix_trace_onstack `{signal_h} l uninit n tbl :
  Forall onstack_request (fix_trace l uninit n tbl).
Proof.
  revert n tbl. induction l as [|s l IH]; intros n tbl; [by constructor|].
  cbn [fix_trace]. unfold fix_calls. cbn [app].
  constructor; [done|]. constructor; [|apply IH].
  unfold onstack_request; simpl. split; [done|]. apply land_lor_same.
Qed.


(** X2. An activation for SIGKILL or SIGSTOP: the query succeeds, the
    reinstall is refused, the table is as it was. *)
Theorem fixSignalHandler_uncatchable `{signal_h} signum fr p old :
  actions p !! signum = Some old →
  signum = SIGKILL ∨ signum = SIGSTOP →
  actions (fixSignalHandler signum fr p).2 = actions p
  ∧ sc_ret <$> new_calls p (fixSignalHandler signum fr p).2 = [0; -1].
Proof.
  intros Hold Hk. rewrite fixSignalHandler_run. cbn [snd actions].
  split.
  - unfold fix_entry. by rewrite decide_True.
  - erewrite new_calls_app; [|done]. unfold fix_calls. rewrite Hold.
    by rewrite decide_True.
Qed.


(** X4. Two activations commute on the signal table: the order in which
    signals are adjusted does not matter, nor do the frames. *)
Theorem fixSignalHandler_commute `{signal_h} a b fr1 fr2 fr3 fr4 p :
  actions (fixSignalHandler b fr2 (fixSignalHandler a fr1 p).2).2
  = actions (fixSignalHandler a fr4 (fixSignalHandler b fr3 p).2).2.
Proof.
  rewrite !fixSignalHandler_run. cbn [snd actions]. apply fix_entry_comm.
Qed.

(** X5. Initialization neither adds nor removes a signal: the table has
    entries for the same signal numbers before and after. *)
Theorem init_preserves_signals `{signal_h} argc argv uninit p :
  dom (actions (LLVMFuzzerInitialize argc argv uninit p).2) = dom (actions p).
Proof.
  rewrite LLVMFuzzerInitialize_run. cbn [snd actions].
  apply set_eq; intros i. rewrite !elem_of_dom, fix_table_lookup.
  case_decide; [|done]. by rewrite fmap_is_Some.
Qed.

(** X7. The flags stay C [int]s: if SA_ONSTACK and the flags of every entry
    are within [int] before initialization, so are the flags of every entry
    after it. *)
Theorem init_flags_stay_int `{signal_h} argc argv uninit p :
  is_int SA_ONSTACK →
  map_Forall (λ _ a, is_int (sa_flags a)) (actions p) →
  map_Forall (λ _ a, is_int (sa_flags a))
    (actions (LLVMFuzzerInitialize argc argv uninit p).2).
Proof.
  intros Hsa Hp. rewrite LLVMFuzzerInitialize_run. cbn [snd actions].
  intros i a. rewrite fix_table_lookup. case_decide.
  - intros (old & Hold & ->)%fmap_Some.
    apply installed_action_flags_is_int; [|done]. by eapply Hp.
  - apply Hp.
Qed.

(** X8. When each of the ten signals has an entry and is neither SIGKILL
    nor SIGSTOP, initialization makes twenty calls and each returns 0. *)
Theorem init_all_calls_succeed `{signal_h} argc argv uninit p :
  Forall (adjustable (actions p)) fixed_signals →
  length (new_calls p (LLVMFuzzerInitialize argc argv uninit p).2) = 20%nat
  ∧ Forall (λ c, sc_ret c = 0)
      (new_calls p (LLVMFuzzerInitialize argc argv uninit p).2).
Proof.
  intros Hl. rewrite LLVMFuzzerInitialize_run. cbn [snd].
  erewrite new_calls_app; [|done]. split.
  - by rewrite length_fix_trace.
  - by apply fix_trace_rets.
Qed.

(** X9. When each of the ten signals has an entry, no indeterminate value
    is used: the whole run, history included, is the same whatever the
    uninitialised locals held. *)
Theorem init_reads_no_indeterminate `{signal_h} argc argv uninit uninit' p :
  Forall (λ s, is_Some (actions p !! s)) fixed_signals →
  LLVMFuzzerInitialize argc argv uninit p
  = LLVMFuzzerInitialize argc argv uninit' p.
Proof.
  intros Hl. rewrite !LLVMFuzzerInitialize_run.
  by rewrite (fix_trace_uninit _ uninit uninit' 0 0).
Qed.

(** X10. Whatever the table and the frames, every call initialization makes
    either installs nothing or asks for an action with an empty mask and
    SA_ONSTACK set: no action without the flag is ever requested. *)
Theorem init_requests_onstack_only `{signal_h} argc argv uninit p :
  Forall onstack_request
    (new_calls p (LLVMFuzzerInitialize argc argv uninit p).2).
Proof.
  rewrite LLVMFuzzerInitialize_run. cbn [snd].
  erewrite new_calls_app; [|done]. apply fix_trace_onstack.
Qed.

(** X11. After [FixStackSignalHandler], one more activation for any of the
    ten signals changes nothing in the table. *)
Theorem fixSignalHandler_after_FixStackSignalHandler `{signal_h}
    signum fr uninit p :
  signum ∈ fixed_signals →
  actions (fixSignalHandler signum fr (FixStackSignalHandler uninit p).2).2
  = actions (FixStackSignalHandler uninit p).2.
Proof.
  intros Hin. rewrite fixSignalHandler_run, FixStackSignalHandler_run.
  cbn [snd actions]. apply map_eq; intros i.
  rewrite fix_entry_lookup, !fix_table_lookup.
  repeat case_decide; try done.
  - rewrite <- option_fmap_compose. apply option_fmap_ext. intros a; simpl.
    apply installed_action_idemp.
  - exfalso. destruct_and!. subst. tauto.
Qed.

(** ** The further properties at work on Linux/x86-64 *)

Section further_on_linux.

#[local] Existing Instance linux_amd64.


Lemma fixSignalHandler_uncatchable_on_linux :
  actions sample_process !! 9 = Some (mk_sigaction 0 0 ∅ 0)
  ∧ (9 = SIGKILL ∨ 9 = SIGSTOP)
  ∧ actions (fixSignalHandler 9 sample_frame sample_process).2
    = actions sample_process
  ∧ sc_ret <$> new_calls sample_process
                 (fixSignalHandler 9 sample_frame sample_process).2
    = [0; -1].
Proof.
  assert (actions sample_process !! 9 = Some (mk_sigaction 0 0 ∅ 0)) as Hold
    by (vm_compute; reflexivity).
  assert (9 = SIGKILL ∨ 9 = SIGSTOP) as Hk by (left; reflexivity).
  repeat (split; [assumption|]).
  exact (fixSignalHandler_uncatchable 9 sample_frame sample_process
           (mk_sigaction 0 0 ∅ 0) Hold Hk).
Defined.


Lemma init_flags_stay_int_on_linux :
  is_int SA_ONSTACK
  ∧ map_Forall (λ _ a, is_int (sa_flags a)) (actions sample_process)
  ∧ map_Forall (λ _ a, is_int (sa_flags a))
      (actions (LLVMFuzzerInitialize 0x7ffc1000 0x7ffc1008
                  sample_uninit sample_process).2).
Proof.
  assert (is_int SA_ONSTACK) as Hsa by by_decide.
  assert (map_Forall (λ _ a, is_int (sa_flags a)) (actions sample_process))
    as Hp by by_decide.
  repeat (split; [assumption|]).
  exact (init_flags_stay_int 0x7ffc1000 0x7ffc1008
           sample_uninit sample_process Hsa Hp).
Defined.

Lemma init_all_calls_succeed_on_linux :
  Forall (adjustable (actions sample_process)) fixed_signals
  ∧ length (new_calls sample_process
              (LLVMFuzzerInitialize 0x7ffc1000 0x7ffc1008
                 sample_uninit sample_process).2) = 20%nat
  ∧ Forall (λ c, sc_ret c = 0)
      (new_calls sample_process
         (LLVMFuzzerInitialize 0x7ffc1000 0x7ffc1008
            sample_uninit sample_process).2).
Proof.
  assert (Forall (adjustable (actions sample_process)) fixed_signals) as Hl
    by by_decide.
  split; [assumption|].
  exact (init_all_calls_succeed 0x7ffc1000 0x7ffc1008
           sample_uninit sample_process Hl).
Defined.

Lemma init_reads_no_indeterminate_on_linux :
  Forall (λ s, is_Some (actions sample_process !! s)) fixed_signals
  ∧ LLVMFuzzerInitialize 0x7ffc1000 0x7ffc1008 sample_uninit sample_process
    = LLVMFuzzerInitialize 0x7ffc1000 0x7ffc1008
        (λ _, mk_frame sample_usr1 sample_segv) sample_process.
Proof.
  assert (Forall (λ s, is_Some (actions sample_process !! s)) fixed_signals)
    as Hl by by_decide.
  split; [assumption|].
  exact (init_reads_no_indeterminate 0x7ffc1000 0x7ffc1008 sample_uninit
           (λ _, mk_frame sample_usr1 sample_segv) sample_process Hl).
Defined.

Lemma fixSignalHandler_after_FixStackSignalHandler_on_linux :
  11 ∈ fixed_signals
  ∧ actions (fixSignalHandler 11 sample_frame
               (FixStackSignalHandler sample_uninit sample_process).2).2
    = actions (FixStackSignalHandler sample_uninit sample_process).2.
Proof.
  assert (11 ∈ fixed_signals) as Hin by by_decide.
  split; [assumption|].
  exact (fixSignalHandler_after_FixStackSignalHandler 11 sample_frame
           sample_uninit sample_process Hin).
Defined.

(** On a table without entries the frames do show in the history: the
    hypothesis of X9 is needed. *)
Example indeterminate_value_used :
  LLVMFuzzerInitialize 0x7ffc1000 0x7ffc1008 sample_uninit bare_process
  ≠ LLVMFuzzerInitialize 0x7ffc1000 0x7ffc1008
      (λ _, mk_frame sample_usr1 sample_segv) bare_process.
Proof. vm_compute. discriminate. Qed.

End further_on_linux.

(** ** The three functions over the C library's sigaction *)

Lemma with_flags_0 a : with_flags 0 a = a.
Proof. unfold with_flags, set_sa_flags. rewrite Z.lor_0_r. by destruct a. Qed.

(** A library that adds no flag is POSIX. *)
Lemma libc_0_posix `{signal_h} signum act oldact p :
  sigaction (kernel := libc 0) signum act oldact p
  = sigaction (kernel := posix) signum act oldact p.
Proof.
  unfold sigaction, libc, posix, libc_sigaction, posix_sigaction.
  destruct (actions p !! signum); [|done].
  case_bool_decide; [done|]. destruct act; [|done].
  by rewrite with_flags_0.
Qed.

Lemma lor_lor_land f s r : Z.land (Z.lor (Z.lor f s) r) s = s.
Proof.
  apply Z.bits_inj'; intros n _. rewrite Z.land_spec, !Z.lor_spec.
  destruct (Z.testbit f n), (Z.testbit s n), (Z.testbit r n); done.
Qed.

Lemma lor_lor_testbit_other f s r n :
  Z.testbit s n = false → Z.testbit r n = false →
  Z.testbit (Z.lor (Z.lor f s) r) n = Z.testbit f n.
Proof. intros Hs Hr. by rewrite !Z.lor_spec, Hs, Hr, !orb_false_r. Qed.

Lemma lor_lor_absorbed f s r :
  Z.land f s = s → Z.land f r = r → Z.lor (Z.lor f s) r = f.
Proof. intros Hs Hr. by rewrite (lor_absorbed f s), (lor_absorbed f r). Qed.

Lemma installed_by_idemp `{signal_h} forced a :
  installed_by forced (installed_by forced a) = installed_by forced a.
Proof.
  unfold installed_by, with_flags, installed_action, set_sa_flags; simpl.
  f_equal. apply Z.bits_inj'; intros n _. rewrite !Z.lor_spec.
  destruct (Z.testbit (sa_flags a) n), (Z.testbit SA_ONSTACK n),
    (Z.testbit forced n); done.
Qed.

Lemma fixSignalHandler_run_libc `{signal_h} forced signum fr p :
  fixSignalHandler (K := libc forced) signum fr p =
    ((), mk_process (libc_entry forced signum (actions p)) (memory p)
           (calls p ++ fix_calls signum fr (actions p))).
Proof.
  unfold fixSignalHandler, libc_entry, fix_calls, mbind, IO_bind, mret, IO_ret.
  unfold sigaction, libc, libc_sigaction, logged; simpl.
  destruct (actions p !! signum) as [cur|] eqn:Hcur; simpl.
  - rewrite Hcur.
    destruct (decide (signum = SIGKILL ∨ signum = SIGSTOP)) as [Hk|Hk].
    + rewrite bool_decide_eq_true_2 by (split; [by eexists|done]).
      by rewrite <- app_assoc.
    + rewrite bool_decide_eq_false_2 by (intros [_ ?]; done).
      rewrite <- app_assoc. do 2 f_equal.
      apply map_eq; intros i. rewrite lookup_alter, lookup_insert.
      destruct (decide (signum = i)) as [->|]; [by rewrite Hcur|done].
  - rewrite Hcur. rewrite <- app_assoc. do 2 f_equal.
    destruct (decide (signum = SIGKILL ∨ signum = SIGSTOP)); [done|].
    apply map_eq; intros i. rewrite lookup_alter.
    destruct (decide (signum = i)) as [->|]; [by rewrite Hcur|done].
Qed.

(** The amended reference is the activation, whatever [new_action] held. *)
Lemma emptying_rmw_fixSignalHandler `{signal_h} {K : kernel} signum junk buf p :
  emptying_rmw signum buf p = fixSignalHandler signum (mk_frame junk buf) p.
Proof. reflexivity. Qed.

Lemma libc_entry_lookup `{signal_h} forced signum tbl i :
  libc_entry forced signum tbl !! i =
    if decide (i = signum ∧ ¬ (i = SIGKILL ∨ i = SIGSTOP))
    then installed_by forced <$> tbl !! i else tbl !! i.
Proof.
  unfold libc_entry.
  destruct (decide (signum = SIGKILL ∨ signum = SIGSTOP)) as [Hk|Hk].
  - rewrite decide_False; [done|]. intros [-> ?]; done.
  - rewrite lookup_alter.
    destruct (decide (signum = i)) as [->|Hne].
    + by rewrite decide_True.
    + rewrite decide_False; [done|]. intros [-> _]; done.
Qed.

Lemma fix_list_run_libc `{signal_h} forced l uninit n p :
  fix_list (K := libc forced) l uninit n p =
    ((), mk_process (libc_table forced l (actions p)) (memory p)
           (calls p ++ libc_trace forced l uninit n (actions p))).
Proof.
  revert n p. induction l as [|signum l IH]; intros n p.
  - simpl. unfold mret, IO_ret. rewrite app_nil_r. by destruct p.
  - simpl. unfold mbind, IO_bind. rewrite fixSignalHandler_run_libc, IH.
    simpl. by rewrite <- app_assoc.
Qed.

Lemma FixStackSignalHandler_run_libc `{signal_h} forced uninit p :
  FixStackSignalHandler (K := libc forced) uninit p =
    ((), mk_process (libc_table forced fixed_signals (actions p)) (memory p)
           (calls p ++ libc_trace forced fixed_signals uninit 0 (actions p))).
Proof. by rewrite FixStackSignalHandler_fix_list, fix_list_run_libc. Qed.

Lemma LLVMFuzzerInitialize_run_libc `{signal_h} forced argc argv uninit p :
  LLVMFuzzerInitialize (K := libc forced) argc argv uninit p =
    (0, mk_process (libc_table forced fixed_signals (actions p)) (memory p)
          (calls p ++ libc_trace forced fixed_signals uninit 0 (actions p))).
Proof.
  unfold LLVMFuzzerInitialize, mbind, IO_bind.
  by rewrite FixStackSignalHandler_run_libc.
Qed.

Lemma libc_table_lookup `{signal_h} forced l tbl i :
  libc_table forced l tbl !! i =
    if decide (i ∈ l ∧ ¬ (i = SIGKILL ∨ i = SIGSTOP))
    then installed_by forced <$> tbl !! i else tbl !! i.
Proof.
  revert tbl. induction l as [|signum l IH]; intros tbl.
  - by unfold libc_table; simpl.
  - unfold libc_table in *. cbn [foldl]. rewrite IH, libc_entry_lookup.
    repeat case_decide; try done; try (exfalso; set_unfold; tauto).
    rewrite <- option_fmap_compose. apply option_fmap_ext. intros a; simpl.
    apply installed_by_idemp.
Qed.

Lemma libc_table_lookup_in `{signal_h} forced l tbl i :
  i ∈ l → i ≠ SIGKILL → i ≠ SIGSTOP →
  libc_table forced l tbl !! i = installed_by forced <$> tbl !! i.
Proof.
  intros Hi Hk Hs. rewrite libc_table_lookup, decide_True; [done|].
  split; [done|]. intros [?|?]; done.
Qed.

Lemma libc_table_idemp `{signal_h} forced l tbl :
  libc_table forced l (libc_table forced l tbl) = libc_table forced l tbl.
Proof.
  apply map_eq; intros i. rewrite !libc_table_lookup.
  case_decide; [|done].
  rewrite <- option_fmap_compose. apply option_fmap_ext. intros a; simpl.
  apply installed_by_idemp.
Qed.

Lemma calls_on_libc_trace_notin `{signal_h} forced l uninit n tbl signum :
  signum ∉ l → calls_on signum (libc_trace forced l uninit n tbl) = [].
Proof.
  revert n tbl. induction l as [|s l IH]; intros n tbl Hs; [done|].
  apply not_elem_of_cons in Hs as [Hne Hs].
  cbn [libc_trace]. unfold fix_calls, calls_on in *. cbn [app].
  rewrite !filter_cons_False by (simpl; congruence).
  by apply IH.
Qed.

(** With pairwise different signal numbers, the calls on a signal of the
    list are the two of its own activation, made on the entry the table had
    at the start. *)
Lemma calls_on_libc_trace_in `{signal_h} forced l uninit n tbl signum fr :
  NoDup l → signum ∈ l → is_Some (tbl !! signum) →
  calls_on signum (libc_trace forced l uninit n tbl) = fix_calls signum fr tbl.
Proof.
  intros Hnd Hin. revert n tbl.
  induction Hnd as [|s l Hs' Hnd IH]; intros n tbl [old Hold].
  - by apply elem_of_nil in Hin.
  - cbn [libc_trace].
    destruct (decide (s = signum)) as [->|Hne].
    + unfold calls_on. rewrite filter_app.
      fold (calls_on signum
              (libc_trace forced l uninit (S n) (libc_entry forced signum tbl))).
      rewrite calls_on_libc_trace_notin, app_nil_r by done.
      unfold fix_calls. rewrite Hold. cbn [default from_option id].
      by rewrite !filter_cons_True, filter_nil by done.
    + unfold calls_on in *. rewrite filter_app.
      unfold fix_calls at 1.
      rewrite !filter_cons_False, filter_nil by (simpl; congruence).
      cbn [app]. rewrite IH.
      * unfold fix_calls.
        by rewrite libc_entry_lookup, decide_False by (intros [? _]; congruence).
      * apply elem_of_cons in Hin as [?|?]; [congruence|done].
      * rewrite libc_entry_lookup, decide_False by (intros [? _]; congruence).
        by eexists.
Qed.

(** C1, amended. For every signal number in the fixed set, after
    [LLVMFuzzerInitialize] the registered action of that signal has the
    SA_ONSTACK flag set in [sa_flags], and so are the flags the C library
    adds to every action it installs (SA_RESTORER under glibc on x86-64);
    every other bit of [sa_flags] is what it was before. *)
Theorem onstack_set_other_bits_kept `{signal_h}
    forced argc argv uninit p signum old :
  signum ∈ fixed_signals → signum ≠ SIGKILL → signum ≠ SIGSTOP →
  actions p !! signum = Some old →
  ∃ new,
    actions (LLVMFuzzerInitialize (K := libc forced)
               argc argv uninit p).2 !! signum = Some new
    ∧ Z.land (sa_flags new) SA_ONSTACK = SA_ONSTACK
    ∧ Z.land (sa_flags new) forced = forced
    ∧ ∀ n, Z.testbit SA_ONSTACK n = false → Z.testbit forced n = false →
           Z.testbit (sa_flags new) n = Z.testbit (sa_flags old) n.
Proof.
  intros Hin Hk Hs Hold. rewrite LLVMFuzzerInitialize_run_libc.
  cbn [snd actions]. rewrite libc_table_lookup_in, Hold by done.
  eexists; split; [done|]. simpl. split; [|split].
  - apply lor_lor_land.
  - apply land_lor_same.
  - intros n Hn Hf. by apply lor_lor_testbit_other.
Qed.

(** C3, amended. For every signal number in the fixed set, what
    initialization does to the entry of that signal is the read-modify-write
    that empties the mask: query the current action, form a new action with
    the old handler fields, the old flags with SA_ONSTACK added and an
    empty mask, reinstall that new action.  The entry afterwards is the one
    this reference leaves, the calls made on the signal are the calls of the
    reference, and exactly one of them is a reinstall, which succeeds. *)
Theorem init_is_emptying_rmw `{signal_h}
    forced argc argv uninit buf p signum old :
  NoDup fixed_signals →
  signum ∈ fixed_signals → signum ≠ SIGKILL → signum ≠ SIGSTOP →
  actions p !! signum = Some old →
  actions (LLVMFuzzerInitialize (K := libc forced)
             argc argv uninit p).2 !! signum
    = actions (emptying_rmw (K := libc forced) signum buf p).2 !! signum
  ∧ calls_on signum
      (new_calls p (LLVMFuzzerInitialize (K := libc forced)
                      argc argv uninit p).2)
    = new_calls p (emptying_rmw (K := libc forced) signum buf p).2
  ∧ sc_ret <$> installs
      (calls_on signum
         (new_calls p (LLVMFuzzerInitialize (K := libc forced)
                         argc argv uninit p).2))
    = [0].
Proof.
  intros Hnd Hin Hk Hs Hold.
  rewrite LLVMFuzzerInitialize_run_libc.
  rewrite (emptying_rmw_fixSignalHandler signum buf buf p).
  rewrite fixSignalHandler_run_libc. cbn [snd actions].
  erewrite !new_calls_app by done.
  rewrite (calls_on_libc_trace_in _ _ _ _ _ _ (mk_frame buf buf))
    by (done || by eexists).
  split; [|split; [done|]].
  - rewrite libc_table_lookup_in, libc_entry_lookup by done.
    rewrite decide_True; [done|]. split; [done|]. intros [?|?]; done.
  - unfold fix_calls. rewrite Hold.
    rewrite decide_False by (intros [?|?]; done).
    unfold installs.
    rewrite filter_cons_False by (simpl; intros [? ?]; done).
    by rewrite filter_cons_True by (simpl; by eexists).
Qed.

(** C8, amended. [FixStackSignalHandler] is idempotent: applying it twice
    leaves the signal table that applying it once leaves.  In particular
    the flags of a fixed signal that already has SA_ONSTACK, and the flags
    the C library adds to every action it installs, are unchanged by the
    call. *)
Theorem FixStackSignalHandler_twice `{signal_h} forced uninit uninit' p :
  actions (FixStackSignalHandler (K := libc forced) uninit'
             (FixStackSignalHandler (K := libc forced) uninit p).2).2
    = actions (FixStackSignalHandler (K := libc forced) uninit p).2
  ∧ ∀ signum old,
      signum ∈ fixed_signals →
      actions p !! signum = Some old →
      Z.land (sa_flags old) SA_ONSTACK = SA_ONSTACK →
      Z.land (sa_flags old) forced = forced →
      ∃ new,
        actions (FixStackSignalHandler (K := libc forced) uninit p).2
          !! signum = Some new
        ∧ sa_flags new = sa_flags old.
Proof.
  rewrite !FixStackSignalHandler_run_libc; cbn [fst snd actions calls]. split.
  - apply libc_table_idemp.
  - intros signum old Hin Hold Hflag Hforced.
    rewrite libc_table_lookup, Hold.
    case_decide; simpl; eexists; split; try done.
    simpl. by apply lor_lor_absorbed.
Qed.

(** X6. For every signal number whatsoever, in the fixed set or not,
    replaceable or not: after initialization the two handler fields are the
    old ones, the mask holds no signal it did not hold before, and every
    flag bit outside SA_ONSTACK and outside the flags the C library adds is
    the old one. *)
Theorem init_keeps_the_rest `{signal_h} forced argc argv uninit p signum old :
  actions p !! signum = Some old →
  ∃ new,
    actions (LLVMFuzzerInitialize (K := libc forced)
               argc argv uninit p).2 !! signum = Some new
    ∧ sa_handler new = sa_handler old
    ∧ sa_sigaction new = sa_sigaction old
    ∧ sa_mask new ⊆ sa_mask old
    ∧ ∀ n, Z.testbit SA_ONSTACK n = false → Z.testbit forced n = false →
           Z.testbit (sa_flags new) n = Z.testbit (sa_flags old) n.
Proof.
  intros Hold. rewrite LLVMFuzzerInitialize_run_libc. cbn [snd actions].
  rewrite libc_table_lookup, Hold.
  case_decide; simpl; eexists; (split; [done|]); simpl.
  - split; [done|]. split; [done|]. split; [set_solver|].
    intros n Hn Hf. by apply lor_lor_testbit_other.
  - done.
Qed.

(** ** glibc on Linux/x86-64 *)

Section glibc_on_linux.

#[local] Existing Instance linux_amd64.

Lemma onstack_set_other_bits_kept_on_linux :
  11 ∈ fixed_signals ∧ 11 ≠ SIGKILL ∧ 11 ≠ SIGSTOP
  ∧ actions sample_process !! 11 = Some sample_segv
  ∧ ∃ new,
      actions (LLVMFuzzerInitialize (K := glibc_amd64) 0x7ffc1000 0x7ffc1008
                 sample_uninit sample_process).2 !! 11 = Some new
      ∧ Z.land (sa_flags new) SA_ONSTACK = SA_ONSTACK
      ∧ Z.land (sa_flags new) SA_RESTORER = SA_RESTORER
      ∧ ∀ n, Z.testbit SA_ONSTACK n = false →
             Z.testbit SA_RESTORER n = false →
             Z.testbit (sa_flags new) n = Z.testbit (sa_flags sample_segv) n.
Proof.
  assert (11 ∈ fixed_signals) as Hin by by_decide.
  assert (11 ≠ SIGKILL) as Hk by (vm_compute; discriminate).
  assert (11 ≠ SIGSTOP) as Hs by (vm_compute; discriminate).
  assert (actions sample_process !! 11 = Some sample_segv) as Hold
    by (vm_compute; reflexivity).
  repeat (split; [assumption|]).
  exact (onstack_set_other_bits_kept SA_RESTORER 0x7ffc1000 0x7ffc1008
           sample_uninit sample_process 11 sample_segv Hin Hk Hs Hold).
Defined.

(** C1 as it was stated fails: bit 26, SA_RESTORER, is no part of
    SA_ONSTACK, was clear, and is set afterwards. *)
Lemma restorer_bit_not_kept_on_linux :
  11 ∈ fixed_signals ∧ 11 ≠ SIGKILL ∧ 11 ≠ SIGSTOP
  ∧ actions sample_process !! 11 = Some sample_segv
  ∧ ¬ ∃ new,
      actions (LLVMFuzzerInitialize (K := glibc_amd64) 0x7ffc1000 0x7ffc1008
                 sample_uninit sample_process).2 !! 11 = Some new
      ∧ Z.land (sa_flags new) SA_ONSTACK = SA_ONSTACK
      ∧ ∀ n, Z.testbit SA_ONSTACK n = false →
             Z.testbit (sa_flags new) n = Z.testbit (sa_flags sample_segv) n.
Proof.
  split; [by_decide|]. split; [vm_compute; discriminate|].
  split; [vm_compute; discriminate|]. split; [vm_compute; reflexivity|].
  intros (new & Hnew & _ & Hbits).
  vm_compute in Hnew. injection Hnew as <-.
  specialize (Hbits 26 eq_refl). vm_compute in Hbits. discriminate.
Qed.

Lemma init_is_emptying_rmw_on_linux :
  NoDup fixed_signals
  ∧ 11 ∈ fixed_signals ∧ 11 ≠ SIGKILL ∧ 11 ≠ SIGSTOP
  ∧ actions sample_process !! 11 = Some sample_segv
  ∧ actions (LLVMFuzzerInitialize (K := glibc_amd64) 0x7ffc1000 0x7ffc1008
               sample_uninit sample_process).2 !! 11
    = actions (emptying_rmw (K := glibc_amd64) 11
                 (old_action0 sample_frame) sample_process).2 !! 11
  ∧ calls_on 11
      (new_calls sample_process
         (LLVMFuzzerInitialize (K := glibc_amd64) 0x7ffc1000 0x7ffc1008
            sample_uninit sample_process).2)
    = new_calls sample_process
        (emptying_rmw (K := glibc_amd64) 11
           (old_action0 sample_frame) sample_process).2
  ∧ sc_ret <$> installs
      (calls_on 11
         (new_calls sample_process
            (LLVMFuzzerInitialize (K := glibc_amd64) 0x7ffc1000 0x7ffc1008
               sample_uninit sample_process).2))
    = [0].
Proof.
  assert (NoDup fixed_signals) as Hnd by by_decide.
  assert (11 ∈ fixed_signals) as Hin by by_decide.
  assert (11 ≠ SIGKILL) as Hk by (vm_compute; discriminate).
  assert (11 ≠ SIGSTOP) as Hs by (vm_compute; discriminate).
  assert (actions sample_process !! 11 = Some sample_segv) as Hold
    by (vm_compute; reflexivity).
  repeat (split; [assumption|]).
  exact (init_is_emptying_rmw SA_RESTORER 0x7ffc1000 0x7ffc1008
           sample_uninit (old_action0 sample_frame) sample_process
           11 sample_segv Hnd Hin Hk Hs Hold).
Defined.

(** C3 as it was stated fails: the reference of the specification
    reinstalls the configuration read, mask included, where the code
    installs an empty mask. *)
Lemma init_is_not_spec_rmw_on_linux :
  NoDup fixed_signals
  ∧ 11 ∈ fixed_signals ∧ 11 ≠ SIGKILL ∧ 11 ≠ SIGSTOP
  ∧ actions sample_process !! 11 = Some sample_segv
  ∧ actions (LLVMFuzzerInitialize (K := glibc_amd64) 0x7ffc1000 0x7ffc1008
               sample_uninit sample_process).2 !! 11
    ≠ actions (spec_rmw (K := glibc_amd64) 11
                 (old_action0 sample_frame) sample_process).2 !! 11.
Proof.
  split; [by_decide|]. split; [by_decide|].
  split; [vm_compute; discriminate|]. split; [vm_compute; discriminate|].
  split; [vm_compute; reflexivity|].
  intros Heq. apply (f_equal (fmap (λ a, bool_decide (sa_mask a = ∅)))) in Heq.
  vm_compute in Heq. discriminate.
Qed.

Lemma FixStackSignalHandler_twice_on_linux :
  actions (FixStackSignalHandler (K := glibc_amd64) sample_uninit
             (FixStackSignalHandler (K := glibc_amd64)
                sample_uninit sample_process).2).2
    = actions (FixStackSignalHandler (K := glibc_amd64)
                 sample_uninit sample_process).2
  ∧ 10 ∈ fixed_signals
  ∧ actions (FixStackSignalHandler (K := glibc_amd64)
               sample_uninit sample_process).2 !! 10
    = Some (mk_sigaction 0x402000 0x402000 ∅ 0x0c000004)
  ∧ Z.land 0x0c000004 SA_ONSTACK = SA_ONSTACK
  ∧ Z.land 0x0c000004 SA_RESTORER = SA_RESTORER
  ∧ ∃ new,
      actions (FixStackSignalHandler (K := glibc_amd64) sample_uninit
                 (FixStackSignalHandler (K := glibc_amd64)
                    sample_uninit sample_process).2).2 !! 10 = Some new
      ∧ sa_flags new = 0x0c000004.
Proof.
  assert (10 ∈ fixed_signals) as Hin by by_decide.
  assert (actions (FixStackSignalHandler (K := glibc_amd64)
                     sample_uninit sample_process).2 !! 10
          = Some (mk_sigaction 0x402000 0x402000 ∅ 0x0c000004)) as Hold
    by (vm_compute; reflexivity).
  assert (Z.land 0x0c000004 SA_ONSTACK = SA_ONSTACK) as Hflag by reflexivity.
  assert (Z.land 0x0c000004 SA_RESTORER = SA_RESTORER) as Hforced
    by reflexivity.
  split.
  - exact (proj1 (FixStackSignalHandler_twice SA_RESTORER
                    sample_uninit sample_uninit sample_process)).
  - repeat (split; [assumption|]).
    exact (proj2 (FixStackSignalHandler_twice SA_RESTORER
                    sample_uninit sample_uninit
                    (FixStackSignalHandler (K := glibc_amd64)
                       sample_uninit sample_process).2)
             10 (mk_sigaction 0x402000 0x402000 ∅ 0x0c000004)
             Hin Hold Hflag Hforced).
Defined.

(** C8 as it was stated fails in its second part: SIGUSR1 has SA_ONSTACK
    already, and its flags go from 0x08000004 to 0x0c000004. *)
Lemma flags_change_despite_onstack_on_linux :
  10 ∈ fixed_signals
  ∧ actions sample_process !! 10 = Some sample_usr1
  ∧ Z.land (sa_flags sample_usr1) SA_ONSTACK = SA_ONSTACK
  ∧ ¬ ∃ new,
      actions (FixStackSignalHandler (K := glibc_amd64)
                 sample_uninit sample_process).2 !! 10 = Some new
      ∧ sa_flags new = sa_flags sample_usr1.
Proof.
  split; [by_decide|]. split; [vm_compute; reflexivity|].
  split; [reflexivity|].
  intros (new & Hnew & Hflags).
  vm_compute in Hnew. injection Hnew as <-.
  vm_compute in Hflags. discriminate.
Qed.

(** The entry of signal 11, whose mask shrinks from {2, 15} to nothing. *)
Lemma init_keeps_the_rest_on_linux :
  actions sample_process !! 11 = Some sample_segv
  ∧ ∃ new,
      actions (LLVMFuzzerInitialize (K := glibc_amd64) 0x7ffc1000 0x7ffc1008
                 sample_uninit sample_process).2 !! 11 = Some new
      ∧ sa_handler new = sa_handler sample_segv
      ∧ sa_sigaction new = sa_sigaction sample_segv
      ∧ sa_mask new ⊆ sa_mask sample_segv
      ∧ ∀ n, Z.testbit SA_ONSTACK n = false →
             Z.testbit SA_RESTORER n = false →
             Z.testbit (sa_flags new) n = Z.testbit (sa_flags sample_segv) n.
Proof.
  assert (actions sample_process !! 11 = Some sample_segv) as Hold
    by (vm_compute; reflexivity).
  split; [assumption|].
  exact (init_keeps_the_rest SA_RESTORER 0x7ffc1000 0x7ffc1008
           sample_uninit sample_process 11 sample_segv Hold).
Defined.

(** The SIGSEGV entry of the sample and the SIGXFSZ entry, at its default,
    after initialization. *)
Example sample_entries_after :
  actions (LLVMFuzzerInitialize (K := glibc_amd64) 0x7ffc1000 0x7ffc1008
             sample_uninit sample_process).2 !! 11
  = Some (mk_sigaction 0x401000 0x401000 ∅ 0x0c000004)
  ∧ actions (LLVMFuzzerInitialize (K := glibc_amd64) 0x7ffc1000 0x7ffc1008
               sample_uninit sample_process).2 !! 25
    = Some (mk_sigaction 0 0 ∅ 0x0c000000).
Proof. split; vm_compute; reflexivity. Qed.

End glibc_on_linux.
